(** * Sandbag wall calculator (src/app.py): a shallow embedding in Rocq.

    The two computational functions of [app.py] are embedded:
    - [calculate_bags]: the bag-quantity estimator;
    - [plot_wall_cross_section_with_bags]: the cross-section layout, whose
      figure is modelled by the geometry it draws (layers and bag polygons).

    Python floats are modelled by exact rationals [Q]: every float the code
    reads or writes is a rational number, and the arithmetic is the exact
    (real-number) arithmetic the floats approximate.  [math.ceil] and
    [math.floor] return Python ints, modelled by [Z].  Python raises
    [ZeroDivisionError] on a float division by zero; this is made explicit
    with a small error monad. *)

From Stdlib Require Import ZArith QArith Qround Lqa String List Lia.
From Stdlib Require Import Sorting.Permutation SetoidList Sorting.SetoidPermutation.
Import ListNotations.

Open Scope Q_scope.

(** ** Python exceptions and a small error monad *)

Inductive exn : Type :=
| ZeroDivisionError.

Inductive result (A : Type) : Type :=
| Ok : A -> result A
| Err : exn -> result A.

Arguments Ok {A} _.
Arguments Err {A} _.

Definition bind {A B : Type} (m : result A) (k : A -> result B) : result B :=
  match m with
  | Ok a => k a
  | Err e => Err e
  end.

Notation "'let*' x ':=' m 'in' k" := (bind m (fun x => k))
  (at level 200, x name, m at level 100, k at level 200).

Definition is_err {A : Type} (m : result A) : bool :=
  match m with
  | Ok _ => false
  | Err _ => true
  end.

(** [for x in xs: body] where [body] may raise: the first exception aborts
    the loop. *)
Fixpoint mapM {A B : Type} (f : A -> result B) (xs : list A) : result (list B) :=
  match xs with
  | [] => Ok []
  | x :: xs' =>
      let* y := f x in
      let* ys := mapM f xs' in
      Ok (y :: ys)
  end.

(** Python's float division [x / y]: raises [ZeroDivisionError] when [y == 0]. *)
Definition pdiv (x y : Q) : result Q :=
  if Qeq_bool y 0 then Err ZeroDivisionError else Ok (x / y).

(** [range(n)] for a Python int [n]: empty when [n <= 0]. *)
Definition range (n : Z) : list Z :=
  map Z.of_nat (seq 0 (Z.to_nat n)).

(** [math.pi]: the double nearest to pi, which is the dyadic rational
    884279719003555 / 2^48. *)
Definition math_pi : Q := Qmake 884279719003555 (2 ^ 48).

(** ** [calculate_bags] (app.py, lines 5-53) *)

(** Step 2, lines 31-45: the effective wall length by shape. *)
Definition effective_length (shape : string) (length : Q) : Q :=
  if String.eqb shape "Straight" then length
  else if String.eqb shape "Arc" then length
  else if String.eqb shape "Circle" then 2 * math_pi * length
  else if String.eqb shape "Semicircle" then math_pi * length
  else length.

(** Returns [(total_bags, layers)]. *)
Definition calculate_bags (height length : Q) (shape : string)
    (bag_length bag_height : Q) : result (Z * Z) :=
  (* 1. Calculate the number of layers *)
  let* q := pdiv height bag_height in
  let layers := Qceiling q in
  (* 2. Effective wall length depends on shape *)
  let effective_length := effective_length shape length in
  (* 3. Bags per layer *)
  let* r := pdiv effective_length bag_length in
  let bags_per_layer := Qceiling r in
  (* 4. Total bags *)
  let total_bags := (layers * bags_per_layer)%Z in
  Ok (total_bags, layers).

(** ** [plot_wall_cross_section_with_bags] (app.py, lines 55-130)

    The matplotlib figure is modelled by what the function draws: for each
    iteration of the layer loop, its locals and the bag polygons it fills,
    plus the axis limits.  Title, labels and styling are not modelled. *)

(** One filled bag rectangle (lines 110-118): its centre [x_center] and the
    polygon [xs], [ys] passed to [ax.fill]. *)
Record Bag : Type := mkBag {
  x_center : Q;
  xs : list Q;
  ys : list Q
}.

(** One iteration of the layer loop (lines 84-118). *)
Record Layer : Type := mkLayer {
  y_bottom : Q;
  y_top : Q;
  frac_bottom : Q;
  frac_top : Q;
  width_bottom : Q;
  width_top : Q;
  avg_layer_width : Q;
  n_bags_layer : Z;
  total_bags_width : Q;
  x_start : Q;
  bags : list Bag
}.

Record Figure : Type := mkFigure {
  n_layers : Z;
  layer_thickness : Q;
  layers : list Layer;
  xlim : Q * Q;
  ylim : Q * Q
}.

(** The inner loop, lines 109-118. *)
Definition draw_bag (x_start bag_width y_bottom y_top : Q) (b : Z) : Bag :=
  let x_center := x_start + inject_Z b * bag_width in
  let x_left := x_center - bag_width / 2 in
  let x_right := x_center + bag_width / 2 in
  mkBag x_center
        [x_left; x_right; x_right; x_left; x_left]
        [y_bottom; y_bottom; y_top; y_top; y_bottom].

(** [(y / height) if height != 0 else d] *)
Definition frac_of (y height d : Q) : result Q :=
  if negb (Qeq_bool height 0) then pdiv y height else Ok d.

(** The body of the layer loop, lines 85-118. *)
Definition layer_step (height w_base w_top bag_width layer_thickness : Q)
    (i : Z) : result Layer :=
  let y_bottom := inject_Z i * layer_thickness in
  let y_top := inject_Z (i + 1) * layer_thickness in
  let* frac_bottom := frac_of y_bottom height 0 in
  let* frac_top := frac_of y_top height 1 in
  let width_bottom := w_base + (w_top - w_base) * frac_bottom in
  let width_top := w_base + (w_top - w_base) * frac_top in
  let avg_layer_width := (width_bottom + width_top) / 2 in
  let* q := pdiv avg_layer_width bag_width in
  let n_bags_layer := Qfloor q in
  let total_bags_width := inject_Z n_bags_layer * bag_width in
  let x_start := - (total_bags_width / 2) + bag_width / 2 in
  let bags := map (draw_bag x_start bag_width y_bottom y_top)
                  (range n_bags_layer) in
  Ok (mkLayer y_bottom y_top frac_bottom frac_top width_bottom width_top
              avg_layer_width n_bags_layer total_bags_width x_start bags).

(** Python's [max(a, b)]: [b] if [b > a], else [a]. *)
Definition py_max (a b : Q) : Q := if Qlt_le_dec a b then b else a.

Definition plot_wall_cross_section_with_bags
    (height bag_height w_base w_top bag_width : Q) : result Figure :=
  (* Compute number of layers (1 bag tall each) *)
  let* q := pdiv height bag_height in
  let n_layers := Qceiling q in
  (* Actual thickness of each layer *)
  let* layer_thickness := pdiv height (inject_Z n_layers) in
  let* layers := mapM (layer_step height w_base w_top bag_width layer_thickness)
                      (range n_layers) in
  let half_max_width := py_max w_base w_top / 2 in
  Ok (mkFigure n_layers layer_thickness layers
               (- half_max_width * (12 # 10), half_max_width * (12 # 10))
               (0, height * (11 # 10))).

(** ** [main] (app.py, lines 132-213)

    One run of the Streamlit script.  Each widget is modelled by the value
    it returns in that run; Streamlit keeps a [number_input] or [slider]
    value within its [min_value]/[max_value] range, which [widgets_ok]
    states.  The base and top width inputs are prefilled with the
    recommended widths: [None] stands for a run where the user kept the
    prefilled value.  The text written to the page is modelled by the
    numbers it shows. *)

Inductive arc_definition : Type :=
| ArcLengthChoice     (* "Arc length" *)
| RadiusAngleChoice.  (* "Radius + angle" *)

Record Widgets : Type := mkWidgets {
  w_shape : string;                 (* st.selectbox, line 139 *)
  w_height : Q;                     (* line 143 *)
  w_length : Q;                     (* wall length, arc length or radius *)
  w_arc_choice : arc_definition;    (* st.radio, line 150 *)
  w_arc_radius : Q;                 (* line 154 *)
  w_arc_angle_deg : Q;              (* line 155 *)
  w_bag_length : Q;                 (* st.slider, line 164 *)
  w_bag_height : Q;                 (* st.slider, line 165 *)
  w_button : bool;                  (* st.button, line 172 *)
  w_base_width : option Q;          (* line 199 *)
  w_top_width : option Q;           (* line 200 *)
  w_bag_cross_width : Q             (* line 203 *)
}.

(** The ranges Streamlit enforces on the widgets of [main]. *)
Definition widgets_ok (w : Widgets) : Prop :=
  0.1 <= w_height w /\ 0.1 <= w_length w /\
  0.1 <= w_arc_radius w /\ 0.1 <= w_arc_angle_deg w /\
  w_arc_angle_deg w <= 360 /\
  0.2 <= w_bag_length w /\ w_bag_length w <= 0.6 /\
  0.05 <= w_bag_height w /\ w_bag_height w <= 0.2 /\
  (forall v, w_base_width w = Some v -> 0 <= v) /\
  (forall v, w_top_width w = Some v -> 0 <= v) /\
  0.01 <= w_bag_cross_width w.

(** [math.radians(x)], computed by CPython as [x * (pi / 180)]. *)
Definition radians (x : Q) : Q := x * (math_pi / 180).

(** Lines 146-162: the length passed to [calculate_bags]. *)
Definition main_length (w : Widgets) : Q :=
  if String.eqb (w_shape w) "Straight" then w_length w
  else if String.eqb (w_shape w) "Arc" then
    match w_arc_choice w with
    | ArcLengthChoice => w_length w
    | RadiusAngleChoice => radians (w_arc_angle_deg w) * w_arc_radius w
    end
  else if String.eqb (w_shape w) "Circle" then w_length w
  else w_length w.

(** The numbers [main] writes to the page, and the figure it shows. *)
Record Display : Type := mkDisplay {
  d_total_bags : Z;
  d_layers : Z;
  d_recommended_base : Q;
  d_recommended_top : Q;
  d_figure : Figure
}.

(** [None]: the button was not pressed and nothing below line 172 runs. *)
Definition main (w : Widgets) : result (option Display) :=
  let shape := w_shape w in
  let height := w_height w in
  let length := main_length w in
  let bag_length := w_bag_length w in
  let bag_height := w_bag_height w in
  if w_button w then
    let* tl := calculate_bags height length shape bag_length bag_height in
    let '(total_bags, layers) := tl in
    let recommended_base := 3 * height in
    let recommended_top := 1 * height in
    let base_width := match w_base_width w with
                      | Some v => v | None => recommended_base end in
    let top_width := match w_top_width w with
                     | Some v => v | None => recommended_top end in
    let bag_cross_width := w_bag_cross_width w in
    let* fig := plot_wall_cross_section_with_bags height bag_height
                  base_width top_width bag_cross_width in
    Ok (Some (mkDisplay total_bags layers recommended_base recommended_top fig))
  else Ok None.

(** The figure drawn for height 1.0, bag height 0.10, base width 3.0
    (3 x height), top width 1.0 (1 x height) and bag width 0.25: the values
    [main] suggests for a 1 m wall. *)
Definition default_layer : Layer := mkLayer 0 0 0 0 0 0 0 0 0 0 [].

Definition example_figure : Figure :=
  match plot_wall_cross_section_with_bags 1.0 0.10 3.0 1.0 0.25 with
  | Ok fig => fig
  | Err _ => mkFigure 0 0 [] (0, 0) (0, 0)
  end.

(** A run of the script on its default widget values ("Straight" wall,
    height 1.0, length 10.0, bag 0.35 x 0.10, bag width 0.25, prefilled
    base and top widths), with the button pressed. *)
Definition example_widgets : Widgets :=
  mkWidgets "Straight" 1.0 10.0 ArcLengthChoice 5.0 180.0 0.35 0.10 true
            None None 0.25.

(** The sum of a list of rationals, used to add up the layer heights. *)
Definition Qsum (l : list Q) : Q := fold_right Qplus 0 l.

(** Equality of results up to the value of the rationals they hold: two
    runs agree when they raise the same exception, or both return and their
    numbers are equal as numbers (not as fraction representations). *)
Definition result_rel {A : Type} (R : A -> A -> Prop) (r r' : result A) : Prop :=
  match r, r' with
  | Ok a, Ok a' => R a a'
  | Err e, Err e' => e = e'
  | _, _ => False
  end.

Definition bag_equiv (b b' : Bag) : Prop :=
  x_center b == x_center b' /\
  eqlistA Qeq (xs b) (xs b') /\ eqlistA Qeq (ys b) (ys b').

Definition layer_equiv (L L' : Layer) : Prop :=
  y_bottom L == y_bottom L' /\ y_top L == y_top L' /\
  frac_bottom L == frac_bottom L' /\ frac_top L == frac_top L' /\
  width_bottom L == width_bottom L' /\ width_top L == width_top L' /\
  avg_layer_width L == avg_layer_width L' /\
  n_bags_layer L = n_bags_layer L' /\
  total_bags_width L == total_bags_width L' /\ x_start L == x_start L' /\
  eqlistA bag_equiv (bags L) (bags L').

Definition figure_equiv (f f' : Figure) : Prop :=
  n_layers f = n_layers f' /\ layer_thickness f == layer_thickness f' /\
  eqlistA layer_equiv (layers f) (layers f') /\
  fst (xlim f) == fst (xlim f') /\ snd (xlim f) == snd (xlim f') /\
  fst (ylim f) == fst (ylim f') /\ snd (ylim f) == snd (ylim f').

(** ** Generic facts about the error monad, [range] and [pdiv] *)

Lemma mapM_Forall2 {A B : Type} (f : A -> result B) xs ys :
  mapM f xs = Ok ys -> Forall2 (fun x y => f x = Ok y) xs ys.
Proof.
  revert ys; induction xs as [|x xs IH]; simpl; intros ys H.
  - inversion H; constructor.
  - destruct (f x) as [y|e] eqn:Hf; simpl in H; [|discriminate].
    destruct (mapM f xs) as [ys'|e] eqn:Hm; simpl in H; [|discriminate].
    inversion H; subst; constructor; auto.
Qed.

Lemma mapM_In {A B : Type} (f : A -> result B) xs ys y :
  mapM f xs = Ok ys -> In y ys -> exists x, In x xs /\ f x = Ok y.
Proof.
  intros H Hy; apply mapM_Forall2 in H.
  induction H as [|x y' xs ys Hxy _ IH]; [destruct Hy|].
  destruct Hy as [<-|Hy]; [exists x; split; [left|]; auto|].
  destruct (IH Hy) as (x' & Hin & Hx'); exists x'; split; [right|]; auto.
Qed.

Lemma mapM_is_err {A B : Type} (f : A -> result B) xs :
  is_err (mapM f xs) = true <-> exists x, In x xs /\ is_err (f x) = true.
Proof.
  induction xs as [|x xs IH]; simpl.
  - split; [discriminate | intros (x & [] & _)].
  - destruct (f x) as [y|e] eqn:Hf; simpl.
    + destruct (mapM f xs) as [ys|e] eqn:Hm; simpl; split.
      * discriminate.
      * intros (x' & [<-|Hin] & Hx'); [rewrite Hf in Hx'; discriminate|].
        assert (Hc : is_err (Ok ys) = true) by (apply IH; eauto).
        discriminate.
      * intros _. destruct IH as [IH _]. destruct (IH eq_refl) as (x' & ? & ?).
        eauto.
      * reflexivity.
    + split; [intros _; exists x; rewrite Hf; auto | reflexivity].
Qed.

Lemma in_range (n i : Z) : In i (range n) <-> (0 <= i < n)%Z.
Proof.
  unfold range; rewrite in_map_iff; split.
  - intros (k & <- & Hk); apply in_seq in Hk; lia.
  - intros Hi; exists (Z.to_nat i); split; [lia|]; apply in_seq; lia.
Qed.

Lemma length_range (n : Z) : length (range n) = Z.to_nat n.
Proof. unfold range; rewrite length_map, length_seq; reflexivity. Qed.

Lemma pdiv_ok (x y : Q) : ~ y == 0 -> pdiv x y = Ok (x / y).
Proof.
  intros Hy; unfold pdiv; destruct (Qeq_bool y 0) eqn:E; [|reflexivity].
  apply Qeq_bool_eq in E; contradiction.
Qed.

Lemma pdiv_err (x y : Q) : y == 0 -> pdiv x y = Err ZeroDivisionError.
Proof.
  intros Hy; unfold pdiv; rewrite (Qeq_eq_bool _ _ Hy); reflexivity.
Qed.

Lemma pdiv_cases (x y : Q) :
  (y == 0 /\ pdiv x y = Err ZeroDivisionError) \/
  (~ y == 0 /\ pdiv x y = Ok (x / y)).
Proof.
  destruct (Qeq_dec y 0) as [H|H]; [left; split; [|apply pdiv_err]
  | right; split; [|apply pdiv_ok]]; assumption.
Qed.

(** [calculate_bags] in closed form: it raises exactly on a zero divisor. *)
Lemma calculate_bags_eq height length shape bag_length bag_height :
  calculate_bags height length shape bag_length bag_height =
  if Qeq_bool bag_height 0 || Qeq_bool bag_length 0
  then Err ZeroDivisionError
  else Ok ((Qceiling (height / bag_height) *
            Qceiling (effective_length shape length / bag_length))%Z,
           Qceiling (height / bag_height)).
Proof.
  unfold calculate_bags, pdiv.
  destruct (Qeq_bool bag_height 0); [reflexivity|]; simpl.
  destruct (Qeq_bool bag_length 0); reflexivity.
Qed.

(** ** Structure of a successful [plot_wall_cross_section_with_bags] run *)

Lemma frac_of_nz (y height d : Q) :
  ~ height == 0 -> frac_of y height d = Ok (y / height).
Proof.
  intros H; unfold frac_of.
  destruct (Qeq_bool height 0) eqn:E; [apply Qeq_bool_eq in E; contradiction|].
  apply pdiv_ok; assumption.
Qed.

(** For a non-zero height, a layer iteration raises exactly when
    [bag_width == 0]. *)
Lemma layer_step_is_err height w_base w_top bag_width layer_thickness i :
  ~ height == 0 ->
  is_err (layer_step height w_base w_top bag_width layer_thickness i) =
  Qeq_bool bag_width 0.
Proof.
  intros Hh; unfold layer_step.
  rewrite !frac_of_nz by assumption; simpl.
  unfold pdiv; destruct (Qeq_bool bag_width 0); reflexivity.
Qed.

Lemma ceiling_zero_height (height bag_height : Q) :
  height == 0 -> Qceiling (height / bag_height) = 0%Z.
Proof.
  intros H.
  assert (E : height / bag_height == 0) by (rewrite H; reflexivity).
  rewrite E; reflexivity.
Qed.

Lemma ceiling_pos_height (height bag_height : Q) :
  (0 < Qceiling (height / bag_height))%Z -> ~ height == 0.
Proof.
  intros Hn Hh; rewrite (ceiling_zero_height _ _ Hh) in Hn; lia.
Qed.

Lemma inject_Z_nz (n : Z) : n <> 0%Z -> ~ inject_Z n == 0.
Proof.
  intros Hn Hq; apply Hn.
  change 0 with (inject_Z 0) in Hq; apply inject_Z_injective; exact Hq.
Qed.

Lemma plot_ok_inv height bag_height w_base w_top bag_width fig :
  plot_wall_cross_section_with_bags height bag_height w_base w_top bag_width
    = Ok fig ->
  ~ bag_height == 0 /\
  n_layers fig = Qceiling (height / bag_height) /\
  n_layers fig <> 0%Z /\
  layer_thickness fig = height / inject_Z (n_layers fig) /\
  mapM (layer_step height w_base w_top bag_width (layer_thickness fig))
       (range (n_layers fig)) = Ok (layers fig).
Proof.
  unfold plot_wall_cross_section_with_bags.
  destruct (pdiv_cases height bag_height) as [[Hb ->]|[Hb ->]];
    simpl; [discriminate|].
  set (n := Qceiling (height / bag_height)).
  destruct (Z.eq_dec n 0) as [Hn|Hn].
  - rewrite pdiv_err by (rewrite Hn; reflexivity); discriminate.
  - rewrite pdiv_ok by (apply inject_Z_nz; exact Hn); simpl.
    destruct (mapM _ _) as [ls|e] eqn:Hm; simpl; [|discriminate].
    intros H; inversion H; subst; simpl; auto.
Qed.

(** Every drawn layer is the iteration [i] of the loop, for some
    [0 <= i < n_layers]. *)
Lemma plot_layer_in height bag_height w_base w_top bag_width fig L :
  plot_wall_cross_section_with_bags height bag_height w_base w_top bag_width
    = Ok fig ->
  In L (layers fig) ->
  exists i, (0 <= i < n_layers fig)%Z /\
    layer_step height w_base w_top bag_width (layer_thickness fig) i = Ok L.
Proof.
  intros Hp HL; destruct (plot_ok_inv _ _ _ _ _ _ Hp) as (_ & _ & _ & _ & Hm).
  destruct (mapM_In _ _ _ _ Hm HL) as (i & Hi & HiL).
  apply in_range in Hi; eauto.
Qed.

Lemma plot_length_layers height bag_height w_base w_top bag_width fig :
  plot_wall_cross_section_with_bags height bag_height w_base w_top bag_width
    = Ok fig ->
  length (layers fig) = Z.to_nat (n_layers fig).
Proof.
  intros Hp; destruct (plot_ok_inv _ _ _ _ _ _ Hp) as (_ & _ & _ & _ & Hm).
  apply mapM_Forall2, Forall2_length in Hm; rewrite <- Hm, length_range.
  reflexivity.
Qed.

Lemma is_err_bind_ok {A B : Type} (m : result A) (g : A -> B) :
  is_err (let* x := m in Ok (g x)) = is_err m.
Proof. destruct m; reflexivity. Qed.

(** ** Claims *)

(** C1: on height 1.0, length 10.0, shape "Straight", bag length 0.35 and
    bag height 0.10, [calculate_bags] computes [layers = ceil(1.0/0.10) = 10],
    [bags_per_layer = ceil(10/0.35) = 29] and returns [(290, 10)]; in
    general, whenever it returns, it returns
    [(ceil(height/bag_height) * ceil(effective_length/bag_length),
      ceil(height/bag_height))]. *)
Theorem calculate_bags_scenario_straight :
  Qceiling (1.0 / 0.10) = 10%Z /\
  Qceiling (effective_length "Straight" 10.0 / 0.35) = 29%Z /\
  calculate_bags 1.0 10.0 "Straight" 0.35 0.10 = Ok (290%Z, 10%Z) /\
  (forall height length shape bag_length bag_height total layers,
     calculate_bags height length shape bag_length bag_height
       = Ok (total, layers) ->
     layers = Qceiling (height / bag_height) /\
     total = (layers *
              Qceiling (effective_length shape length / bag_length))%Z).
Proof.
  split; [vm_compute; reflexivity|].
  split; [vm_compute; reflexivity|].
  split; [vm_compute; reflexivity|].
  intros height length shape bag_length bag_height total layers H.
  rewrite calculate_bags_eq in H.
  destruct (Qeq_bool bag_height 0 || Qeq_bool bag_length 0);
    inversion H; auto.
Qed.



(** C3: with height 0 (bag height 0.10, widths 3.0 and 1.0, bag width 0.25)
    the layer count is [ceil(0/0.10) = 0], not at least 1, and
    [plot_wall_cross_section_with_bags] raises [ZeroDivisionError] at
    [layer_thickness = height / n_layers] (line 80), before the
    [height != 0] guards of lines 90-91 are reached. *)
Theorem plot_zero_height_raises :
  Qceiling (0 / 0.10) = 0%Z /\
  plot_wall_cross_section_with_bags 0 0.10 3.0 1.0 0.25
    = Err ZeroDivisionError.
Proof. split; vm_compute; reflexivity. Qed.

Lemma effective_length_circle (r : Q) :
  effective_length "Circle" r = 2 * math_pi * r.
Proof. reflexivity. Qed.

Lemma effective_length_semicircle (r : Q) :
  effective_length "Semicircle" r = math_pi * r.
Proof. reflexivity. Qed.


(** The layer count [ceil(height / bag_height)] brackets the height. *)
Lemma ceiling_layers_bounds (height bag_height : Q) :
  0 < height -> 0 < bag_height ->
  let n := Qceiling (height / bag_height) in
  height <= inject_Z n * bag_height /\
  inject_Z (n - 1) * bag_height < height /\ (1 <= n)%Z.
Proof.
  intros Hh Hb n.
  assert (Hq : 0 < height / bag_height)
    by (apply Qlt_shift_div_l; [exact Hb | rewrite Qmult_0_l; exact Hh]).
  assert (Hup : height / bag_height <= inject_Z n) by apply Qle_ceiling.
  assert (Hlo : inject_Z (n - 1) < height / bag_height) by apply Qceiling_lt.
  split; [|split].
  - apply Qnot_lt_le; intros Hc.
    apply (Qlt_shift_div_l _ _ _ Hb) in Hc.
    apply (Qlt_not_le _ _ Hc Hup).
  - apply Qnot_le_lt; intros Hc.
    apply (Qle_shift_div_r _ _ _ Hb) in Hc.
    apply (Qlt_not_le _ _ Hlo Hc).
  - assert (H0 : inject_Z 0 < inject_Z n) by (eapply Qlt_le_trans; eauto).
    rewrite <- Zlt_Qlt in H0; lia.
Qed.




(** What one iteration of the layer loop computes, for a non-zero height. *)
Lemma layer_step_inv height w_base w_top bag_width layer_thickness i L :
  ~ height == 0 ->
  layer_step height w_base w_top bag_width layer_thickness i = Ok L ->
  ~ bag_width == 0 /\
  y_bottom L = inject_Z i * layer_thickness /\
  y_top L = inject_Z (i + 1) * layer_thickness /\
  frac_bottom L = y_bottom L / height /\
  frac_top L = y_top L / height /\
  width_bottom L = w_base + (w_top - w_base) * frac_bottom L /\
  width_top L = w_base + (w_top - w_base) * frac_top L /\
  avg_layer_width L = (width_bottom L + width_top L) / 2 /\
  n_bags_layer L = Qfloor (avg_layer_width L / bag_width) /\
  total_bags_width L = inject_Z (n_bags_layer L) * bag_width /\
  x_start L = - (total_bags_width L / 2) + bag_width / 2 /\
  bags L = map (draw_bag (x_start L) bag_width (y_bottom L) (y_top L))
               (range (n_bags_layer L)).
Proof.
  intros Hh; unfold layer_step.
  rewrite !frac_of_nz by assumption; simpl.
  destruct (pdiv_cases ((w_base + (w_top - w_base) * (inject_Z i * layer_thickness / height)
      + (w_base + (w_top - w_base) * (inject_Z (i + 1) * layer_thickness / height))) / 2)
      bag_width) as [[Hw ->]|[Hw ->]]; simpl; [discriminate|].
  intros H; inversion H; subst; simpl; repeat split; assumption.
Qed.

Lemma Qsum_const (g : Layer -> Q) (c : Q) (ls : list Layer) :
  (forall L, In L ls -> g L == c) ->
  Qsum (map g ls) == inject_Z (Z.of_nat (length ls)) * c.
Proof.
  induction ls as [|L ls IH]; intros Hc; simpl.
  - reflexivity.
  - rewrite Zpos_P_of_succ_nat, <- Z.add_1_r, inject_Z_plus.
    rewrite (Hc L (or_introl eq_refl)), IH by (intros; apply Hc; right; auto).
    ring.
Qed.


(** A drawn layer comes from an iteration [0 <= i < n_layers] with a
    non-zero height. *)
Lemma plot_layer_nz height bag_height w_base w_top bag_width fig L :
  plot_wall_cross_section_with_bags height bag_height w_base w_top bag_width
    = Ok fig ->
  In L (layers fig) ->
  exists i, (0 <= i < n_layers fig)%Z /\ ~ height == 0 /\
    layer_step height w_base w_top bag_width (layer_thickness fig) i = Ok L.
Proof.
  intros Hp HL.
  destruct (plot_layer_in _ _ _ _ _ _ _ Hp HL) as (i & Hi & HiL).
  destruct (plot_ok_inv _ _ _ _ _ _ Hp) as (_ & Hn & _).
  exists i; split; [exact Hi|]; split; [|exact HiL].
  apply (ceiling_pos_height _ bag_height); rewrite <- Hn; lia.
Qed.

Lemma nth_map_in_range {A B : Type} (f : A -> B) (l : list A) (n : nat)
    (a : A) (b : B) :
  (n < length l)%nat -> nth n (map f l) b = f (nth n l a).
Proof.
  revert n; induction l as [|x l IH]; intros [|n] Hn; simpl in *;
    try lia; [reflexivity | apply IH; lia].
Qed.

Lemma nth_map_range (g : Z -> Q) (m : Z) (k : nat) :
  (k < Z.to_nat m)%nat -> nth k (map g (range m)) 0 = g (Z.of_nat k).
Proof.
  intros Hk; unfold range; rewrite map_map.
  rewrite (nth_map_in_range _ _ _ 0%nat 0) by (rewrite length_seq; lia).
  rewrite seq_nth by lia; reflexivity.
Qed.

Lemma eqlistA_Qeq_nth (l1 l2 : list Q) :
  length l1 = length l2 ->
  (forall j, (j < length l1)%nat -> nth j l1 0 == nth j l2 0) ->
  eqlistA Qeq l1 l2.
Proof.
  revert l2; induction l1 as [|x l1 IH]; intros [|y l2] Hlen Hj;
    simpl in *; try discriminate; constructor.
  - apply (Hj 0%nat); lia.
  - apply IH; [lia|]. intros j Hlt; apply (Hj (S j)); lia.
Qed.

(** Centres [x_start + b * bag_width], [b] in [range m], with
    [x_start = -(m * bag_width)/2 + bag_width/2], are closed under negation. *)
Lemma centers_symmetric (m : Z) (bag_width : Q) :
  let x0 := - (inject_Z m * bag_width / 2) + bag_width / 2 in
  let cs := map (fun b => x0 + inject_Z b * bag_width) (range m) in
  PermutationA Qeq (map Qopp cs) cs.
Proof.
  intros x0 cs.
  assert (Hlen : length cs = Z.to_nat m) by (unfold cs; rewrite length_map, length_range; reflexivity).
  transitivity (rev cs).
  - apply eqlistA_PermutationA.
    apply eqlistA_Qeq_nth; [rewrite length_map, length_rev; reflexivity|].
    intros j Hj; rewrite length_map, Hlen in Hj.
    rewrite (nth_map_in_range _ _ _ 0 0) by (rewrite Hlen; exact Hj).
    rewrite rev_nth by lia.
    rewrite Hlen; unfold cs; rewrite !nth_map_range by lia.
    assert (E : inject_Z (Z.of_nat (Z.to_nat m - S j)) ==
                inject_Z m - 1 - inject_Z (Z.of_nat j)).
    { replace (Z.of_nat (Z.to_nat m - S j)) with (m + -1 + - Z.of_nat j)%Z by lia.
      rewrite !inject_Z_plus, !inject_Z_opp; reflexivity. }
    rewrite E; unfold x0; field.
  - apply Permutation_PermutationA; [apply Q_Setoid|].
    apply Permutation_sym, Permutation_rev.
Qed.


(** C8: on height 1.0, bag height 0.10, base width 3.0, top width 1.0 and
    bag width 0.25 the layout has 10 layers of thickness 0.10; layer 0 has
    widths 3.0 and 2.8, average 2.9 and [floor(2.9/0.25) = 11] bags; layer 9
    has widths 1.2 and 1.0, average 1.1 and [floor(1.1/0.25) = 4] bags. *)
Theorem cross_section_scenario :
  exists fig,
    plot_wall_cross_section_with_bags 1.0 0.10 3.0 1.0 0.25 = Ok fig /\
    n_layers fig = 10%Z /\ length (layers fig) = 10%nat /\
    layer_thickness fig == 0.10 /\
    exists L0 L9,
      nth_error (layers fig) 0 = Some L0 /\
      nth_error (layers fig) 9 = Some L9 /\
      width_bottom L0 == 3.0 /\ width_top L0 == 2.8 /\
      avg_layer_width L0 == (3.0 + 2.8) / 2 /\ avg_layer_width L0 == 2.9 /\
      n_bags_layer L0 = Qfloor (2.9 / 0.25) /\ n_bags_layer L0 = 11%Z /\
      width_bottom L9 == 1.2 /\ width_top L9 == 1.0 /\
      avg_layer_width L9 == (1.2 + 1.0) / 2 /\ avg_layer_width L9 == 1.1 /\
      n_bags_layer L9 = Qfloor (1.1 / 0.25) /\ n_bags_layer L9 = 4%Z.
Proof.
  destruct (plot_wall_cross_section_with_bags 1.0 0.10 3.0 1.0 0.25)
    as [fig|e] eqn:E; [|vm_compute in E; discriminate].
  pose proof E as E'; vm_compute in E'; injection E' as <-.
  eexists; split; [exact E|].
  split; [reflexivity|]; split; [reflexivity|].
  split; [vm_compute; reflexivity|].
  do 2 eexists; split; [reflexivity|]; split; [reflexivity|].
  repeat split; vm_compute; reflexivity.
Qed.

Lemma interpolated_width_nonneg (w_base w_top f : Q) :
  0 <= w_base -> 0 <= w_top -> 0 <= f -> f <= 1 ->
  0 <= w_base + (w_top - w_base) * f.
Proof.
  intros Hb Ht Hf0 Hf1.
  setoid_replace (w_base + (w_top - w_base) * f)
    with (w_base * (1 - f) + w_top * f) by ring.
  setoid_replace 0 with (0 + 0) by reflexivity.
  apply Qplus_le_compat; apply Qmult_le_0_compat; lra.
Qed.

(** The interpolation fraction [i / n] of a layer boundary lies in [[0, 1]]. *)
Lemma layer_fraction_bounds (i n : Z) :
  (0 <= i <= n)%Z -> (0 < n)%Z ->
  0 <= inject_Z i / inject_Z n /\ inject_Z i / inject_Z n <= 1.
Proof.
  intros Hi Hn.
  assert (Hq : 0 < inject_Z n) by (change 0 with (inject_Z 0); rewrite <- Zlt_Qlt; lia).
  split.
  - apply Qle_shift_div_l; [exact Hq|].
    rewrite Qmult_0_l; change 0 with (inject_Z 0); rewrite <- Zle_Qle; lia.
  - apply Qle_shift_div_r; [exact Hq|].
    rewrite Qmult_1_l; rewrite <- Zle_Qle; lia.
Qed.


(** ** Value-compatibility of the embedding *)

Lemma bind_rel {A B : Type} (R : A -> A -> Prop) (S : B -> B -> Prop)
    (m m' : result A) (k k' : A -> result B) :
  result_rel R m m' ->
  (forall a a', R a a' -> result_rel S (k a) (k' a')) ->
  result_rel S (let* a := m in k a) (let* a := m' in k' a).
Proof.
  destruct m, m'; simpl; intros Hm Hk; try contradiction; auto.
Qed.

Lemma pdiv_rel (x x' y y' : Q) :
  x == x' -> y == y' -> result_rel Qeq (pdiv x y) (pdiv x' y').
Proof.
  intros Hx Hy.
  destruct (pdiv_cases x y) as [[Hz ->]|[Hz ->]];
  destruct (pdiv_cases x' y') as [[Hz' ->]|[Hz' ->]]; simpl; auto.
  - apply Hz'; rewrite <- Hy; exact Hz.
  - apply Hz; rewrite Hy; exact Hz'.
  - rewrite Hx, Hy; reflexivity.
Qed.

Lemma frac_of_rel (y y' h h' d : Q) :
  y == y' -> h == h' -> result_rel Qeq (frac_of y h d) (frac_of y' h' d).
Proof.
  intros Hy Hh; unfold frac_of.
  destruct (Qeq_bool h 0) eqn:E; destruct (Qeq_bool h' 0) eqn:E'; simpl.
  - reflexivity.
  - apply Qeq_bool_eq in E; apply Qeq_bool_neq in E'.
    exfalso; apply E'; rewrite <- Hh; exact E.
  - apply Qeq_bool_neq in E; apply Qeq_bool_eq in E'.
    exfalso; apply E; rewrite Hh; exact E'.
  - apply pdiv_rel; assumption.
Qed.

Lemma mapM_rel {A B : Type} (R : B -> B -> Prop) (f g : A -> result B) xs :
  (forall x, result_rel R (f x) (g x)) ->
  result_rel (eqlistA R) (mapM f xs) (mapM g xs).
Proof.
  intros Hfg; induction xs as [|x xs IH]; simpl; [constructor|].
  apply (bind_rel R); [apply Hfg|]; intros y y' Hy.
  apply (bind_rel (eqlistA R)); [exact IH|]; intros ys ys' Hys.
  simpl; constructor; assumption.
Qed.

Lemma draw_bags_rel (x0 x0' bw bw' yb yb' yt yt' : Q) (r : list Z) :
  x0 == x0' -> bw == bw' -> yb == yb' -> yt == yt' ->
  eqlistA bag_equiv (map (draw_bag x0 bw yb yt) r)
                    (map (draw_bag x0' bw' yb' yt') r).
Proof.
  intros Hx Hw Hb Ht; induction r as [|b r IH]; simpl; constructor; auto.
  assert (Hc : x0 + inject_Z b * bw == x0' + inject_Z b * bw')
    by (rewrite Hx, Hw; reflexivity).
  assert (Hl : x0 + inject_Z b * bw - bw / 2 == x0' + inject_Z b * bw' - bw' / 2)
    by (rewrite Hc, Hw; reflexivity).
  assert (Hr : x0 + inject_Z b * bw + bw / 2 == x0' + inject_Z b * bw' + bw' / 2)
    by (rewrite Hc, Hw; reflexivity).
  unfold bag_equiv, draw_bag; simpl.
  split; [exact Hc|]; split; repeat constructor; assumption.
Qed.

Lemma layer_step_rel (h h' wb wb' wt wt' bw bw' t t' : Q) (i : Z) :
  h == h' -> wb == wb' -> wt == wt' -> bw == bw' -> t == t' ->
  result_rel layer_equiv (layer_step h wb wt bw t i) (layer_step h' wb' wt' bw' t' i).
Proof.
  intros Hh Hb Ht Hw Htt; unfold layer_step.
  apply (bind_rel Qeq); [apply frac_of_rel; [rewrite Htt; reflexivity | exact Hh]|].
  intros fb fb' Hfb.
  apply (bind_rel Qeq); [apply frac_of_rel; [rewrite Htt; reflexivity | exact Hh]|].
  intros ft ft' Hft.
  apply (bind_rel Qeq); [apply pdiv_rel; [rewrite Hb, Ht, Hfb, Hft; reflexivity | exact Hw]|].
  intros q q' Hq.
  assert (Hn : Qfloor q = Qfloor q') by (apply Qfloor_comp; exact Hq).
  cbn -[Qplus Qmult Qminus Qopp Qdiv inject_Z Qfloor range draw_bag].
  rewrite Hn.
  assert (Hy0 : inject_Z i * t == inject_Z i * t') by (rewrite Htt; reflexivity).
  assert (Hy1 : inject_Z (i + 1) * t == inject_Z (i + 1) * t')
    by (rewrite Htt; reflexivity).
  assert (Hw0 : wb + (wt - wb) * fb == wb' + (wt' - wb') * fb')
    by (rewrite Hb, Ht, Hfb; reflexivity).
  assert (Hw1 : wb + (wt - wb) * ft == wb' + (wt' - wb') * ft')
    by (rewrite Hb, Ht, Hft; reflexivity).
  assert (Ha : (wb + (wt - wb) * fb + (wb + (wt - wb) * ft)) / 2 ==
               (wb' + (wt' - wb') * fb' + (wb' + (wt' - wb') * ft')) / 2)
    by (rewrite Hw0, Hw1; reflexivity).
  assert (Hs : inject_Z (Qfloor q') * bw == inject_Z (Qfloor q') * bw')
    by (rewrite Hw; reflexivity).
  assert (Hx : - (inject_Z (Qfloor q') * bw / 2) + bw / 2 ==
               - (inject_Z (Qfloor q') * bw' / 2) + bw' / 2)
    by (rewrite Hw; reflexivity).
  unfold layer_equiv; cbn -[Qplus Qmult Qminus Qopp Qdiv inject_Z Qfloor range draw_bag].
  repeat (split; [assumption || reflexivity|]).
  apply draw_bags_rel; assumption.
Qed.

Lemma py_max_rel (a a' b b' : Q) : a == a' -> b == b' -> py_max a b == py_max a' b'.
Proof.
  intros Ha Hb; unfold py_max.
  destruct (Qlt_le_dec a b) as [H|H]; destruct (Qlt_le_dec a' b') as [H'|H'];
    lra.
Qed.

Lemma Qeq_bool_zero_compat (x y : Q) : x == y -> Qeq_bool x 0 = Qeq_bool y 0.
Proof.
  intros H; destruct (Qeq_bool y 0) eqn:E.
  - apply Qeq_bool_eq in E; apply Qeq_eq_bool; rewrite H; exact E.
  - apply Qeq_bool_neq in E; destruct (Qeq_bool x 0) eqn:E'; [|reflexivity].
    apply Qeq_bool_eq in E'; exfalso; apply E; rewrite <- H; exact E'.
Qed.

Lemma effective_length_compat (shape : string) (l l' : Q) :
  l == l' -> effective_length shape l == effective_length shape l'.
Proof.
  intros Hl; unfold effective_length.
  destruct (String.eqb shape "Straight"); [exact Hl|].
  destruct (String.eqb shape "Arc"); [exact Hl|].
  destruct (String.eqb shape "Circle"); [rewrite Hl; reflexivity|].
  destruct (String.eqb shape "Semicircle"); [rewrite Hl; reflexivity | exact Hl].
Qed.

(** C9: both core functions are deterministic functions of the values of
    their numeric inputs: runs on inputs with the same values (and the same
    shape) give the same [calculate_bags] result, and
    [plot_wall_cross_section_with_bags] raises in both or in neither and
    otherwise draws the same layer and bag geometry. *)
Theorem core_deterministic
    (height height' length length' bag_length bag_length' bag_height
     bag_height' w_base w_base' w_top w_top' bag_width bag_width' : Q)
    (shape : string)
    (Hh : height == height') (Hl : length == length')
    (Hbl : bag_length == bag_length') (Hbh : bag_height == bag_height')
    (Hwb : w_base == w_base') (Hwt : w_top == w_top')
    (Hbw : bag_width == bag_width') :
  calculate_bags height length shape bag_length bag_height =
  calculate_bags height' length' shape bag_length' bag_height' /\
  result_rel figure_equiv
    (plot_wall_cross_section_with_bags height bag_height w_base w_top bag_width)
    (plot_wall_cross_section_with_bags height' bag_height' w_base' w_top'
       bag_width').
Proof.
  split.
  - rewrite !calculate_bags_eq.
    rewrite (Qeq_bool_zero_compat _ _ Hbh), (Qeq_bool_zero_compat _ _ Hbl).
    rewrite Hh, Hbh, Hbl, (effective_length_compat shape _ _ Hl).
    reflexivity.
  - unfold plot_wall_cross_section_with_bags.
    apply (bind_rel Qeq); [apply pdiv_rel; assumption|].
    intros q q' Hq.
    assert (Hn : Qceiling q = Qceiling q') by (apply Qceiling_comp; exact Hq).
    rewrite Hn.
    apply (bind_rel Qeq); [apply pdiv_rel; [exact Hh | reflexivity]|].
    intros t t' Ht.
    apply (bind_rel (eqlistA layer_equiv)).
    { apply mapM_rel; intros i; apply layer_step_rel; assumption. }
    intros ls ls' Hls.
    assert (Hm : py_max w_base w_top / 2 == py_max w_base' w_top' / 2)
      by (rewrite (py_max_rel _ _ _ _ Hwb Hwt); reflexivity).
    unfold result_rel, figure_equiv; simpl.
    repeat split; try assumption; try reflexivity;
      rewrite ?Hm, ?Hh; reflexivity.
Qed.

Lemma core_deterministic_witness :
  calculate_bags 1.0 10.0 "Straight" 0.35 0.10 =
  calculate_bags (10 # 10) (100 # 10) "Straight" (7 # 20) (1 # 10) /\
  result_rel figure_equiv
    (plot_wall_cross_section_with_bags 1.0 0.10 3.0 1.0 0.25)
    (plot_wall_cross_section_with_bags (10 # 10) (1 # 10) (3 # 1) (1 # 1)
       (1 # 4)).
Proof.
  apply (core_deterministic 1.0 (10 # 10) 10.0 (100 # 10) 0.35 (7 # 20)
           0.10 (1 # 10) 3.0 (3 # 1) 1.0 (1 # 1) 0.25 (1 # 4) "Straight");
    vm_compute; reflexivity.
Defined.

Lemma example_figure_ok :
  plot_wall_cross_section_with_bags 1.0 0.10 3.0 1.0 0.25 = Ok example_figure.
Proof. vm_compute; reflexivity. Qed.




(** ** Further properties of the code *)

Lemma math_pi_pos : 0 < math_pi.
Proof. vm_compute; reflexivity. Qed.

Lemma effective_length_pos (shape : string) (length : Q) :
  0 < length -> 0 < effective_length shape length.
Proof.
  intros Hl; unfold effective_length.
  destruct (String.eqb shape "Straight"); [exact Hl|].
  destruct (String.eqb shape "Arc"); [exact Hl|].
  assert (Hp := math_pi_pos).
  destruct (String.eqb shape "Circle").
  - apply Qmult_lt_0_compat; [|exact Hl].
    apply Qmult_lt_0_compat; [reflexivity | exact Hp].
  - destruct (String.eqb shape "Semicircle"); [|exact Hl].
    apply Qmult_lt_0_compat; assumption.
Qed.

Lemma effective_length_mono (shape : string) (l l' : Q) :
  l <= l' -> effective_length shape l <= effective_length shape l'.
Proof.
  intros Hl; unfold effective_length.
  destruct (String.eqb shape "Straight"); [exact Hl|].
  destruct (String.eqb shape "Arc"); [exact Hl|].
  assert (Hp := math_pi_pos).
  destruct (String.eqb shape "Circle"); [|destruct (String.eqb shape "Semicircle")];
    try exact Hl; rewrite !(Qmult_comm _ l), !(Qmult_comm _ l');
    apply Qmult_le_compat_r; try exact Hl; vm_compute; discriminate.
Qed.

Lemma ceiling_nonneg (x : Q) : 0 <= x -> (0 <= Qceiling x)%Z.
Proof.
  intros Hx; change 0%Z with (Qceiling 0); apply Qceiling_resp_le; exact Hx.
Qed.

Lemma div_nonneg (x y : Q) : 0 <= x -> 0 < y -> 0 <= x / y.
Proof.
  intros Hx Hy; apply Qle_shift_div_l; [exact Hy | rewrite Qmult_0_l; exact Hx].
Qed.


(** X2: with positive bag sizes, the estimate grows with the wall: a height
    and length at least as large (both non-negative) give at least as many
    layers and at least as many bags, for every shape. *)
Theorem calculate_bags_monotone (height height' length length' bag_length
    bag_height : Q) (shape : string) (total layers total' layers' : Z)
    (Hh : 0 <= height) (Hh' : height <= height')
    (Hl : 0 <= length) (Hl' : length <= length')
    (Hbl : 0 < bag_length) (Hbh : 0 < bag_height)
    (Hr : calculate_bags height length shape bag_length bag_height
            = Ok (total, layers))
    (Hr' : calculate_bags height' length' shape bag_length bag_height
             = Ok (total', layers')) :
  (layers <= layers')%Z /\ (total <= total')%Z.
Proof.
  rewrite calculate_bags_eq in Hr, Hr'.
  destruct (Qeq_bool bag_height 0 || Qeq_bool bag_length 0);
    [discriminate|]; inversion Hr; inversion Hr'; subst.
  assert (He : 0 <= effective_length shape length).
  { unfold effective_length.
    assert (Hp := Qlt_le_weak _ _ math_pi_pos).
    destruct (String.eqb shape "Straight"); [exact Hl|].
    destruct (String.eqb shape "Arc"); [exact Hl|].
    destruct (String.eqb shape "Circle").
    - apply Qmult_le_0_compat; [apply Qmult_le_0_compat|]; try assumption;
        discriminate.
    - destruct (String.eqb shape "Semicircle"); [|exact Hl].
      apply Qmult_le_0_compat; assumption. }
  assert (Ha : (Qceiling (height / bag_height) <= Qceiling (height' / bag_height))%Z).
  { apply Qceiling_resp_le, Qmult_le_compat_r; [exact Hh'|].
    apply Qlt_le_weak, Qinv_lt_0_compat; exact Hbh. }
  assert (Hb : (Qceiling (effective_length shape length / bag_length) <=
                Qceiling (effective_length shape length' / bag_length))%Z).
  { apply Qceiling_resp_le, Qmult_le_compat_r; [apply effective_length_mono; exact Hl'|].
    apply Qlt_le_weak, Qinv_lt_0_compat; exact Hbl. }
  assert (Ha0 := ceiling_nonneg _ (div_nonneg _ _ Hh Hbh)).
  assert (Hb0 := ceiling_nonneg _ (div_nonneg _ _ He Hbl)).
  split; [exact Ha|]; apply Z.mul_le_mono_nonneg; assumption.
Qed.

Lemma plot_ok_exists height bag_height w_base w_top bag_width :
  ~ bag_height == 0 -> (0 < Qceiling (height / bag_height))%Z ->
  ~ bag_width == 0 ->
  exists fig, plot_wall_cross_section_with_bags height bag_height w_base w_top
                bag_width = Ok fig.
Proof.
  intros Hb Hn Hw; unfold plot_wall_cross_section_with_bags.
  rewrite pdiv_ok by exact Hb; simpl.
  rewrite pdiv_ok by (apply inject_Z_nz; lia); simpl.
  destruct (mapM _ _) as [ls|e] eqn:Hm; simpl; [eexists; reflexivity|].
  assert (He : is_err (mapM (layer_step height w_base w_top bag_width
             (height / inject_Z (Qceiling (height / bag_height))))
             (range (Qceiling (height / bag_height)))) = true)
    by (rewrite Hm; reflexivity).
  apply mapM_is_err in He; destruct He as (i & _ & He).
  rewrite layer_step_is_err in He by (apply (ceiling_pos_height _ bag_height); exact Hn).
  apply Qeq_bool_eq in He; contradiction.
Qed.

Lemma main_length_pos (w : Widgets) : widgets_ok w -> 0 < main_length w.
Proof.
  intros (_ & Hl & Hr & Ha & _).
  assert (Hl0 : 0 < w_length w) by (eapply Qlt_le_trans; [|exact Hl]; reflexivity).
  unfold main_length.
  destruct (String.eqb (w_shape w) "Straight"); [exact Hl0|].
  destruct (String.eqb (w_shape w) "Arc");
    [|destruct (String.eqb (w_shape w) "Circle"); exact Hl0].
  destruct (w_arc_choice w); [exact Hl0|].
  unfold radians; apply Qmult_lt_0_compat; [apply Qmult_lt_0_compat|].
  - eapply Qlt_le_trans; [|exact Ha]; reflexivity.
  - reflexivity.
  - eapply Qlt_le_trans; [|exact Hr]; reflexivity.
Qed.


Lemma main_length_arc_radius_angle h l r a bl bh btn bw tw cw :
  main_length (mkWidgets "Arc" h l RadiusAngleChoice r a bl bh btn bw tw cw)
    = radians a * r.
Proof. reflexivity. Qed.

Lemma main_length_circle h l c r a bl bh btn bw tw cw :
  main_length (mkWidgets "Circle" h l c r a bl bh btn bw tw cw) = l.
Proof. reflexivity. Qed.

Lemma main_length_semicircle h l c r a bl bh btn bw tw cw :
  main_length (mkWidgets "Semicircle" h l c r a bl bh btn bw tw cw) = l.
Proof. reflexivity. Qed.

Ltac widget_fields :=
  cbn [w_shape w_height w_length w_arc_choice w_arc_radius w_arc_angle_deg
       w_bag_length w_bag_height w_button w_base_width w_top_width
       w_bag_cross_width].

(** X4: an "Arc" given by radius [r] and angle 360 degrees yields exactly
    the run of a "Circle" of radius [r]: same bag count, layer count and
    figure. *)
Theorem main_arc_full_turn_is_circle (h l r a bl bh cw : Q) (btn : bool)
    (bw tw : option Q) (Ha : a == 360) :
  main (mkWidgets "Arc" h l RadiusAngleChoice r a bl bh btn bw tw cw) =
  main (mkWidgets "Circle" h r RadiusAngleChoice r a bl bh btn bw tw cw).
Proof.
  unfold main; rewrite main_length_arc_radius_angle, main_length_circle.
  widget_fields; destruct btn; [|reflexivity].
  rewrite !calculate_bags_eq.
  assert (E : Qceiling (effective_length "Arc" (radians a * r) / bl) =
              Qceiling (effective_length "Circle" r / bl)).
  { apply Qceiling_comp.
    change (effective_length "Arc" (radians a * r)) with (radians a * r).
    rewrite effective_length_circle; unfold radians; rewrite Ha.
    setoid_replace (360 * (math_pi / 180) * r) with (2 * math_pi * r) by field.
    reflexivity. }
  rewrite E; reflexivity.
Qed.

(** X5: an "Arc" given by radius [r] and angle 180 degrees yields exactly
    the run of a "Semicircle" of radius [r]. *)
Theorem main_arc_half_turn_is_semicircle (h l r a bl bh cw : Q) (btn : bool)
    (bw tw : option Q) (Ha : a == 180) :
  main (mkWidgets "Arc" h l RadiusAngleChoice r a bl bh btn bw tw cw) =
  main (mkWidgets "Semicircle" h r RadiusAngleChoice r a bl bh btn bw tw cw).
Proof.
  unfold main; rewrite main_length_arc_radius_angle, main_length_semicircle.
  widget_fields; destruct btn; [|reflexivity].
  rewrite !calculate_bags_eq.
  assert (E : Qceiling (effective_length "Arc" (radians a * r) / bl) =
              Qceiling (effective_length "Semicircle" r / bl)).
  { apply Qceiling_comp.
    change (effective_length "Arc" (radians a * r)) with (radians a * r).
    rewrite effective_length_semicircle; unfold radians; rewrite Ha.
    setoid_replace (180 * (math_pi / 180) * r) with (math_pi * r) by field.
    reflexivity. }
  rewrite E; reflexivity.
Qed.

Lemma Forall2_nth_rel {A B : Type} (P : A -> B -> Prop) l1 l2 k d1 d2 :
  Forall2 P l1 l2 -> (k < length l1)%nat -> P (nth k l1 d1) (nth k l2 d2).
Proof.
  intros H; revert k; induction H as [|x y l1 l2 Hxy _ IH]; intros k Hk;
    simpl in *; [lia|].
  destruct k; [exact Hxy | apply IH; lia].
Qed.

Lemma nth_range (n : Z) (k : nat) :
  (k < Z.to_nat n)%nat -> nth k (range n) 0%Z = Z.of_nat k.
Proof.
  intros Hk; unfold range.
  rewrite (nth_map_in_range _ _ _ 0%nat) by (rewrite length_seq; exact Hk).
  rewrite seq_nth by exact Hk; reflexivity.
Qed.

(** The [k]-th drawn layer in closed form. *)
Lemma plot_layer_k height bag_height w_base w_top bag_width fig k :
  plot_wall_cross_section_with_bags height bag_height w_base w_top bag_width
    = Ok fig ->
  (k < length (layers fig))%nat ->
  let n := n_layers fig in
  let L := nth k (layers fig) default_layer in
  (0 < n)%Z /\ ~ height == 0 /\ ~ bag_width == 0 /\
  layer_step height w_base w_top bag_width (layer_thickness fig) (Z.of_nat k)
    = Ok L /\
  y_bottom L == inject_Z (Z.of_nat k) * height / inject_Z n /\
  y_top L == inject_Z (Z.of_nat k + 1) * height / inject_Z n /\
  frac_bottom L == inject_Z (Z.of_nat k) / inject_Z n /\
  frac_top L == inject_Z (Z.of_nat k + 1) / inject_Z n /\
  avg_layer_width L ==
    w_base + (w_top - w_base) *
             (inject_Z (2 * Z.of_nat k + 1) / inject_Z (2 * n)) /\
  n_bags_layer L = Qfloor (avg_layer_width L / bag_width).
Proof.
  intros Hp Hk n L.
  assert (Hlen := plot_length_layers _ _ _ _ _ _ Hp).
  destruct (plot_ok_inv _ _ _ _ _ _ Hp) as (_ & Hceil & Hn0 & Ht & Hm).
  fold n in Hlen, Hceil, Hn0, Ht, Hm.
  assert (Hnpos : (0 < n)%Z) by lia.
  assert (Hh0 : ~ height == 0)
    by (apply (ceiling_pos_height _ bag_height); rewrite <- Hceil; exact Hnpos).
  assert (Hstep : layer_step height w_base w_top bag_width (layer_thickness fig)
                    (Z.of_nat k) = Ok L).
  { apply mapM_Forall2 in Hm.
    assert (Hk' : (k < length (range n))%nat) by (rewrite length_range; lia).
    pose proof (Forall2_nth_rel _ _ _ k 0%Z default_layer Hm Hk') as H.
    rewrite nth_range in H by lia; exact H. }
  destruct (layer_step_inv _ _ _ _ _ _ _ Hh0 Hstep)
    as (Hw & Hyb & Hyt & Hfb & Hft & Hwb & Hwt & Havg & Hnb & _).
  assert (Hnq : ~ inject_Z n == 0) by (apply inject_Z_nz; lia).
  assert (Hfb' : frac_bottom L == inject_Z (Z.of_nat k) / inject_Z n)
    by (rewrite Hfb, Hyb, Ht; field; split; assumption).
  assert (Hft' : frac_top L == inject_Z (Z.of_nat k + 1) / inject_Z n)
    by (rewrite Hft, Hyt, Ht; field; split; assumption).
  do 4 (split; [assumption|]).
  split; [rewrite Hyb, Ht; field; exact Hnq|].
  split; [rewrite Hyt, Ht; field; exact Hnq|].
  split; [exact Hfb'|]; split; [exact Hft'|].
  split; [|exact Hnb].
  rewrite Havg, Hwb, Hwt, Hfb', Hft'.
  rewrite !inject_Z_plus, !inject_Z_mult; field; exact Hnq.
Qed.



(** Bag counts never grow from one layer to a higher one when the top is
    not wider than the base. *)
Lemma plot_bags_antitone height bag_height w_base w_top bag_width fig j k :
  plot_wall_cross_section_with_bags height bag_height w_base w_top bag_width
    = Ok fig ->
  w_top <= w_base -> 0 < bag_width ->
  (j <= k)%nat -> (k < length (layers fig))%nat ->
  (n_bags_layer (nth k (layers fig) default_layer) <=
   n_bags_layer (nth j (layers fig) default_layer))%Z.
Proof.
  intros Hp Hwt Hw Hjk Hk.
  destruct (plot_layer_k _ _ _ _ _ _ k Hp Hk)
    as (Hn & _ & _ & _ & _ & _ & _ & _ & Hak & Hnk).
  destruct (plot_layer_k _ _ _ _ _ _ j Hp ltac:(lia))
    as (_ & _ & _ & _ & _ & _ & _ & _ & Haj & Hnj).
  rewrite Hnk, Hnj; apply Qfloor_resp_le.
  apply Qmult_le_compat_r; [|apply Qlt_le_weak, Qinv_lt_0_compat; exact Hw].
  rewrite Hak, Haj.
  set (D := inject_Z (2 * n_layers fig)).
  assert (HD : 0 < D)
    by (unfold D; change 0 with (inject_Z 0); rewrite <- Zlt_Qlt; lia).
  assert (Hf : inject_Z (2 * Z.of_nat j + 1) / D <= inject_Z (2 * Z.of_nat k + 1) / D).
  { apply Qmult_le_compat_r; [rewrite <- Zle_Qle; lia|].
    apply Qlt_le_weak, Qinv_lt_0_compat; exact HD. }
  set (fj := inject_Z (2 * Z.of_nat j + 1) / D) in *.
  set (fk := inject_Z (2 * Z.of_nat k + 1) / D) in *.
  assert (Hm : fj * (w_base - w_top) <= fk * (w_base - w_top))
    by (apply Qmult_le_compat_r; [exact Hf | lra]).
  lra.
Qed.

(** X8: when the top of the wall is not wider than its base and the bag
    width is positive, no layer holds more bags than any layer below it. *)
Theorem bags_per_layer_nonincreasing height bag_height w_base w_top bag_width
    (fig : Figure) (j k : nat)
    (Hp : plot_wall_cross_section_with_bags height bag_height w_base w_top
            bag_width = Ok fig)
    (Hwt : w_top <= w_base) (Hw : 0 < bag_width)
    (Hjk : (j <= k)%nat) (Hk : (k < length (layers fig))%nat) :
  (n_bags_layer (nth k (layers fig) default_layer) <=
   n_bags_layer (nth j (layers fig) default_layer))%Z.
Proof. exact (plot_bags_antitone _ _ _ _ _ _ j k Hp Hwt Hw Hjk Hk). Qed.



Lemma plot_ok_lims height bag_height w_base w_top bag_width fig :
  plot_wall_cross_section_with_bags height bag_height w_base w_top bag_width
    = Ok fig ->
  xlim fig = (- (py_max w_base w_top / 2) * (12 # 10),
              py_max w_base w_top / 2 * (12 # 10)) /\
  ylim fig = (0, height * (11 # 10)).
Proof.
  unfold plot_wall_cross_section_with_bags.
  destruct (pdiv_cases height bag_height) as [[Hb ->]|[Hb ->]];
    simpl; [discriminate|].
  destruct (pdiv_cases height (inject_Z (Qceiling (height / bag_height))))
    as [[Hn ->]|[Hn ->]]; simpl; [discriminate|].
  destruct (mapM _ _) as [ls|e]; simpl; [|discriminate].
  intros H; inversion H; subst; simpl; auto.
Qed.

Lemma interpolated_width_le_max (w_base w_top f : Q) :
  0 <= f -> f <= 1 -> w_base + (w_top - w_base) * f <= py_max w_base w_top.
Proof.
  intros H0 H1; unfold py_max.
  destruct (Qlt_le_dec w_base w_top) as [H|H].
  - assert (0 <= (w_top - w_base) * (1 - f)) by (apply Qmult_le_0_compat; lra).
    lra.
  - assert (0 <= (w_base - w_top) * f) by (apply Qmult_le_0_compat; lra).
    lra.
Qed.



(** X13: with non-negative base and top widths and a negative bag width,
    every layer gets [floor(avg / bag_width) <= 0] bags, so [range] is empty
    and no bag is drawn. *)
Theorem negative_bag_width_draws_no_bag height bag_height w_base w_top
    bag_width (fig : Figure)
    (Hwb : 0 <= w_base) (Hwt : 0 <= w_top) (Hw : bag_width < 0)
    (Hp : plot_wall_cross_section_with_bags height bag_height w_base w_top
            bag_width = Ok fig) :
  forall L, In L (layers fig) -> (n_bags_layer L <= 0)%Z /\ bags L = [].
Proof.
  intros L HL.
  destruct (plot_layer_nz _ _ _ _ _ _ _ Hp HL) as (i & Hi & Hh0 & Hstep).
  destruct (plot_ok_inv _ _ _ _ _ _ Hp) as (_ & _ & Hn0 & Ht & _).
  destruct (layer_step_inv _ _ _ _ _ _ _ Hh0 Hstep)
    as (_ & Hyb & Hyt & Hfb & Hft & Hwbot & Hwtop & Havg & Hnb & _ & _ & Hbags).
  set (n := n_layers fig) in *.
  assert (Hnq : ~ inject_Z n == 0) by (apply inject_Z_nz; exact Hn0).
  assert (Hfb' : frac_bottom L == inject_Z i / inject_Z n)
    by (rewrite Hfb, Hyb, Ht; field; split; assumption).
  assert (Hft' : frac_top L == inject_Z (i + 1) / inject_Z n)
    by (rewrite Hft, Hyt, Ht; field; split; assumption).
  destruct (layer_fraction_bounds i n) as [Hb0 Hb1]; [lia | lia |].
  destruct (layer_fraction_bounds (i + 1) n) as [Ht0 Ht1]; [lia | lia |].
  assert (Hbot : 0 <= width_bottom L)
    by (rewrite Hwbot; apply interpolated_width_nonneg; rewrite ?Hfb'; assumption).
  assert (Htop : 0 <= width_top L)
    by (rewrite Hwtop; apply interpolated_width_nonneg; rewrite ?Hft'; assumption).
  assert (Havg0 : 0 <= avg_layer_width L)
    by (rewrite Havg; apply Qle_shift_div_l; [reflexivity | lra]).
  assert (Hq : avg_layer_width L / bag_width <= 0).
  { setoid_replace (avg_layer_width L / bag_width)
      with (- (avg_layer_width L / - bag_width)) by (field; lra).
    assert (0 <= avg_layer_width L / - bag_width)
      by (apply Qle_shift_div_l; [lra | rewrite Qmult_0_l; exact Havg0]).
    lra. }
  assert (Hm : (n_bags_layer L <= 0)%Z)
    by (rewrite Hnb; change 0%Z with (Qfloor 0); apply Qfloor_resp_le; exact Hq).
  split; [exact Hm|].
  rewrite Hbags; unfold range.
  replace (Z.to_nat (n_bags_layer L)) with 0%nat by lia.
  reflexivity.
Qed.

Lemma example_widgets_ok : widgets_ok example_widgets.
Proof.
  unfold widgets_ok, example_widgets; cbn.
  repeat split; try (vm_compute; discriminate); intros v Hv; discriminate.
Qed.


Lemma calculate_bags_monotone_witness :
  (10 <= 20)%Z /\ (290 <= 580)%Z.
Proof.
  exact (calculate_bags_monotone 1.0 2.0 10.0 10.0 0.35 0.10 "Straight"
           290 10 580 20
           ltac:(vm_compute; discriminate) ltac:(vm_compute; discriminate)
           ltac:(vm_compute; discriminate) ltac:(vm_compute; discriminate)
           ltac:(vm_compute; reflexivity) ltac:(vm_compute; reflexivity)
           ltac:(vm_compute; reflexivity) ltac:(vm_compute; reflexivity)).
Defined.


Lemma main_arc_full_turn_is_circle_witness :
  main (mkWidgets "Arc" 1.0 15.0 RadiusAngleChoice 5.0 360 0.35 0.10 true
          None None 0.25) =
  main (mkWidgets "Circle" 1.0 5.0 RadiusAngleChoice 5.0 360 0.35 0.10 true
          None None 0.25).
Proof.
  exact (main_arc_full_turn_is_circle 1.0 15.0 5.0 360 0.35 0.10 0.25 true
           None None ltac:(vm_compute; reflexivity)).
Defined.

Lemma main_arc_half_turn_is_semicircle_witness :
  main (mkWidgets "Arc" 1.0 15.0 RadiusAngleChoice 5.0 180.0 0.35 0.10 true
          None None 0.25) =
  main (mkWidgets "Semicircle" 1.0 5.0 RadiusAngleChoice 5.0 180.0 0.35 0.10
          true None None 0.25).
Proof.
  exact (main_arc_half_turn_is_semicircle 1.0 15.0 5.0 180.0 0.35 0.10 0.25
           true None None ltac:(vm_compute; reflexivity)).
Defined.



Lemma bags_per_layer_nonincreasing_witness :
  (n_bags_layer (nth 9 (layers example_figure) default_layer) <=
   n_bags_layer (nth 0 (layers example_figure) default_layer))%Z.
Proof.
  apply (bags_per_layer_nonincreasing 1.0 0.10 3.0 1.0 0.25 example_figure 0%nat 9%nat
           example_figure_ok).
  - vm_compute; discriminate.
  - vm_compute; reflexivity.
  - lia.
  - vm_compute; lia.
Defined.





Lemma negative_bag_width_draws_no_bag_witness :
  exists fig,
    plot_wall_cross_section_with_bags 1.0 0.10 3.0 1.0 (-0.25) = Ok fig /\
    (0 < length (layers fig))%nat /\
    bags (nth 0 (layers fig) default_layer) = [].
Proof.
  exists (match plot_wall_cross_section_with_bags 1.0 0.10 3.0 1.0 (-0.25)
          with Ok f => f | Err _ => mkFigure 0 0 [] (0, 0) (0, 0) end).
  split; [vm_compute; reflexivity|].
  split; [vm_compute; lia|].
  apply (negative_bag_width_draws_no_bag 1.0 0.10 3.0 1.0 (-0.25) _
           ltac:(vm_compute; discriminate) ltac:(vm_compute; discriminate)
           ltac:(vm_compute; reflexivity) ltac:(vm_compute; reflexivity)).
  apply nth_In; vm_compute; lia.
Defined.
